(** * Quizzards: a shallow embedding of [src/scripts/main.js]

    The script defines a model ([QuestionAnswer], [QuestionsList]), a view
    ([QuizzardsView]) and a controller ([QuizzardsApp]).  Every method is
    embedded as a function in a small state-and-exception monad over the
    application object, so that what a handler has already mutated is
    still visible after it throws, as in JavaScript.

    Conventions.
    - JavaScript numbers that count ([state.current], [state.score],
      [length]) are integers [Z].  [++] is [+ 1], which is what it does
      on a number from [-2^53] up to, not including, [2^53]; an array is
      shorter than [2^32], and the counters of a run never pass its
      length.  A statement about [++] on any application whatever bounds
      the counter.
    - A [string] stands for the JavaScript string whose code units are the
      byte values of its characters (code units below 256); [trim] and
      [toLowerCase] are ECMAScript's on that range.
    - [undefined] and [null] are [None].
    - The four templates of the view are the constructors of [screen].
      [printQuestion] puts the question text into the markup as it is:
      [elements] lists the elements of the template alone, which are all
      there is when the text is plain ([plain_text]: no ["<"], so that the
      parser makes no element of it).  What holds of clicks on a bank
      with other texts is not said here, and the statements about which
      click reaches which handler assume [plain_bank].
    - Line 210 of the source, [else (userAnswer.value.length >= 1) {], does
      not parse.  Nothing here chooses a repair: [checkAnswer] takes the
      reading of that line as an argument ([line210]), either
      [else if (userAnswer.value.length >= 1) {] or a plain [else {],
      and every statement is for both readings unless it names one. *)

From Stdlib Require Import ZArith List String Ascii Bool Lia.
Import ListNotations.
Local Open Scope string_scope.
Local Open Scope Z_scope.

(* ================================================================== *)
(** ** Strings: [String.prototype.trim] and [toLowerCase]              *)
(* ================================================================== *)

Module JSString.

(** WhiteSpace and LineTerminator code units below 256:
    TAB, LF, VT, FF, CR, SPACE and NO-BREAK SPACE. *)
Definition is_whitespace (c : ascii) : bool :=
  let n := N_of_ascii c in
  ((9 <=? n) && (n <=? 13) || (n =? 32) || (n =? 160))%N.

Fixpoint trimStart (s : string) : string :=
  match s with
  | EmptyString => EmptyString
  | String c r => if is_whitespace c then trimStart r else s
  end.

Fixpoint trimEnd (s : string) : string :=
  match s with
  | EmptyString => EmptyString
  | String c r =>
      match trimEnd r with
      | EmptyString => if is_whitespace c then EmptyString
                       else String c EmptyString
      | r' => String c r'
      end
  end.

Definition trim (s : string) : string := trimEnd (trimStart s).

(** Upper-case letters below 256 are A-Z and U+00C0-U+00DE without the
    multiplication sign U+00D7; each lower-cases to the code unit 32
    above it. *)
Definition lower_char (c : ascii) : ascii :=
  let n := N_of_ascii c in
  if ((65 <=? n) && (n <=? 90)
      || (192 <=? n) && (n <=? 222) && negb (n =? 215))%N
  then ascii_of_N (n + 32) else c.

Fixpoint toLowerCase (s : string) : string :=
  match s with
  | EmptyString => EmptyString
  | String c r => String (lower_char c) (toLowerCase r)
  end.

(** [a === b] on two strings. *)
Definition strict_eq (a b : string) : bool := String.eqb a b.

End JSString.

(* ================================================================== *)
(** ** Models                                                          *)
(* ================================================================== *)

(** [class QuestionAnswer]. *)
Record QuestionAnswer : Type := new_QuestionAnswer
  { question : string;
    answer : string }.

(** [class QuestionsList extends Array]: an array of [QuestionAnswer]. *)
Definition QuestionsList : Type := list QuestionAnswer.

(** An argument of the [QuestionsList] constructor: a two value array
    (question, answer), or anything that is not an array. *)
Inductive constructor_arg : Type :=
| PairArray (q a : string)
| NotAnArray.

(** [args.filter(Array.isArray).map(argument => new QuestionAnswer(...argument))],
    handed to the [Array] constructor. *)
Fixpoint new_QuestionsList (args : list constructor_arg) : QuestionsList :=
  match args with
  | [] => []
  | PairArray q a :: rest => new_QuestionAnswer q a :: new_QuestionsList rest
  | NotAnArray :: rest => new_QuestionsList rest
  end.

(** [questions.length]. *)
Definition length_of (qs : QuestionsList) : Z := Z.of_nat (List.length qs).

(** [questions[i]]: the element at an index, [undefined] outside the array. *)
Definition element_at (qs : QuestionsList) (i : Z) : option QuestionAnswer :=
  if i <? 0 then None else nth_error qs (Z.to_nat i).

(** [const questions = new QuestionsList(...)]. *)
Definition questions_const : QuestionsList :=
  new_QuestionsList
    [ PairArray "What is the capital of Syria?" "Damascus";
      PairArray "Can fish fly?" "yes";
      PairArray "Can chickens swim?" "no";
      PairArray "Which city is the biggest in Germany?" "Berlin";
      PairArray "Is Pablo Escobar still alive?" "No";
      PairArray "Are JavaScript and Java the same programming language?" "No" ].

(* ================================================================== *)
(** ** The application object                                          *)
(* ================================================================== *)

(** What [printTemplate] can be handed: one constructor per template. *)
Inductive screen : Type :=
| FirstPage (amount : Z)
| QuestionPage (q : string)
| ResultPage (result : string)
| ScorePage (final : Z).

(** The elements with an [id] in the templates. *)
Inductive elem_id : Type := play | answer_form | answer_input | check_answer | next.

Definition elem_eqb (a b : elem_id) : bool :=
  match a, b with
  | play, play | answer_form, answer_form | answer_input, answer_input
  | check_answer, check_answer | next, next => true
  | _, _ => false
  end.

(** The elements of each template.  A question page holds these three and
    whatever the parser makes of the question text: nothing, for a plain
    text. *)
Definition elements (s : screen) : list elem_id :=
  match s with
  | FirstPage _ => [play]
  | QuestionPage _ => [answer_form; answer_input; check_answer]
  | ResultPage _ => [next]
  | ScorePage _ => [play]
  end.

(** The callbacks [init] hands to [delegateListener]. *)
Inductive callback : Type := cb_startGame | cb_checkAnswer | cb_nextQuestion.

(** [class QuizzardsView]: the container's [innerHTML] ([None] until the
    first [printTemplate]), the click listeners added to the container, in
    the order they were added, and a ghost trace of every template
    printed so far. *)
Record QuizzardsView : Type := mkView
  { innerHTML : option screen;
    listeners : list (elem_id * callback);
    rendered : list screen }.

(** [this.state]. *)
Record State : Type := mkState
  { current : Z;
    score : Z }.

(** [class QuizzardsApp]. *)
Record QuizzardsApp : Type := mkApp
  { view : QuizzardsView;
    questions : QuestionsList;
    state : State }.

(** [new QuizzardsView(containerSelector)]. *)
Definition new_QuizzardsView : QuizzardsView :=
  {| innerHTML := None; listeners := []; rendered := [] |}.

(** [new QuizzardsApp(view, model)]. *)
Definition new_QuizzardsApp (v : QuizzardsView) (model : QuestionsList)
  : QuizzardsApp :=
  {| view := v; questions := model; state := {| current := 0; score := 0 |} |}.

(* ================================================================== *)
(** ** Methods run in a state and exception monad                     *)
(* ================================================================== *)

(** What a computation can throw: the [TypeError] of reading a property
    off [undefined] or [null], with the property's name; or whatever a
    [throw] statement raises, with its message.  The script has no
    [throw] statement. *)
Inductive error : Type :=
| TypeError (property : string)
| Thrown (message : string).

Inductive completion (A : Type) : Type :=
| Normal (a : A)
| Throw (e : error).
Arguments Normal {A} a.
Arguments Throw {A} e.

Definition M (A : Type) : Type := QuizzardsApp -> completion A * QuizzardsApp.

Definition ret {A} (a : A) : M A := fun app => (Normal a, app).

Definition bind {A B} (m : M A) (f : A -> M B) : M B :=
  fun app =>
    match m app with
    | (Normal a, app') => f a app'
    | (Throw e, app') => (Throw e, app')
    end.

Definition throw {A} (e : error) : M A := fun app => (Throw e, app).

Definition get {A} (f : QuizzardsApp -> A) : M A := fun app => (Normal (f app), app).

Definition modify (f : QuizzardsApp -> QuizzardsApp) : M unit :=
  fun app => (Normal tt, f app).

Declare Scope js_scope.
Delimit Scope js_scope with js.
Notation "x <- m ;; k" := (bind m (fun x => k))
  (at level 61, m at next level, right associativity) : js_scope.
Notation "m ;; k" := (bind m (fun _ => k))
  (at level 61, right associativity) : js_scope.
Local Open Scope js_scope.

(** The application the computation ends in, and how it ended. *)
Definition exec {A} (m : M A) (app : QuizzardsApp) : QuizzardsApp := snd (m app).
Definition outcome {A} (m : M A) (app : QuizzardsApp) : completion A := fst (m app).

(** [qs[i]] as an expression: it completes normally at every index. *)
Definition index (qs : QuestionsList) (i : Z) : M (option QuestionAnswer) :=
  ret (element_at qs i).

(** Reading the property [name] of a value that may be [undefined] (or
    [null]) throws a [TypeError] there. *)
Definition prop {A B} (name : string) (f : A -> B) (o : option A) : M B :=
  match o with
  | Some x => ret (f x)
  | None => throw (TypeError name)
  end.

(* ================================================================== *)
(** ** View                                                            *)
(* ================================================================== *)

(** Field updates of the application object. *)
Definition set_view (f : QuizzardsView -> QuizzardsView) (app : QuizzardsApp)
  : QuizzardsApp :=
  {| view := f (view app); questions := questions app; state := state app |}.

Definition set_state (f : State -> State) (app : QuizzardsApp) : QuizzardsApp :=
  {| view := view app; questions := questions app; state := f (state app) |}.

(** [printTemplate(templateString)]: replaces the container's content. *)
Definition printTemplate (s : screen) : M unit :=
  modify (set_view (fun v =>
    {| innerHTML := Some s;
       listeners := listeners v;
       rendered := rendered v ++ [s] |})).

Definition printFirstPage (amount : Z) : M unit := printTemplate (FirstPage amount).
Definition printQuestion (q : string) : M unit := printTemplate (QuestionPage q).
Definition printResult (result : string) : M unit := printTemplate (ResultPage result).
Definition printScore (sc : Z) : M unit := printTemplate (ScorePage sc).

(** [delegateListener('click', targetSelector, callback)]: one more click
    listener on the container. *)
Definition delegateListener (targetSelector : elem_id) (cb : callback) : M unit :=
  modify (set_view (fun v =>
    {| innerHTML := innerHTML v;
       listeners := listeners v ++ [(targetSelector, cb)];
       rendered := rendered v |})).

(** [this.app.querySelectorAll('#id')] on the current content. *)
Definition querySelectorAll (sel : elem_id) (v : QuizzardsView) : list elem_id :=
  match innerHTML v with
  | Some s => filter (elem_eqb sel) (elements s)
  | None => []
  end.

(** A click: the element clicked and what the answer field holds then. *)
Record click : Type := mkClick
  { target : elem_id;
    typed : string }.

(** [event.currentTarget.querySelector('#answer')]: the answer field, seen
    as the text it holds, or [null]. *)
Definition querySelector_answer (event : click) : M (option string) :=
  v <- get view ;;
  ret (match querySelectorAll answer_input v with
       | [] => None
       | _ :: _ => Some (typed event)
       end).

(* ================================================================== *)
(** ** Controller                                                      *)
(* ================================================================== *)

(** The two texts handed to [printResult]. *)
Definition correct_message : string :=
  "Correct! You might not be as dumb as I thought you were.".
Definition wrong_message : string := "Wrong human, try again!".

(** [s.value] on a primitive string [s]: no such property. *)
Definition value_of_string (s : string) : option string := None.

(** [s.length]. *)
Definition string_length (s : string) : Z := Z.of_nat (String.length s).

(** [startGame()]: both counters are set before the question is looked
    up, so they stay set when the lookup throws. *)
Definition startGame : M unit :=
  modify (set_state (fun st => {| current := 0; score := score st |})) ;;
  modify (set_state (fun st => {| current := current st; score := 0 |})) ;;
  qs <- get questions ;;
  cur <- get (fun app => current (state app)) ;;
  qa <- index qs cur ;;
  q <- prop "question" question qa ;;
  printQuestion q.

(** The two readings of line 210, which does not parse as it stands:
    with the [if] of its sibling branches (lines 205, 208), or as a plain
    [else] with the parenthesised text taken out. *)
Inductive line210 : Type :=
| read_else_if
| read_else.

(** [checkAnswer(event)].  The three locals are read first, then the
    trimmed text of the answer field.  The branches follow lines 203-212:
    the test on the last index, the comparison of the lower-cased
    strings, and the branch of line 210 under the reading [rd]; read with
    [if], its guard [userAnswer.value.length >= 1] reads [value] off the
    trimmed string itself. *)
Definition checkAnswer (rd : line210) (event : click) : M unit :=
  qs <- get questions ;;
  cur <- get (fun app => current (state app)) ;;
  sc <- get (fun app => score (state app)) ;;
  field <- querySelector_answer event ;;
  value <- prop "value" (fun s : string => s) field ;;
  let userAnswer := JSString.trim value in
  if cur >=? length_of qs - 1 then
    printScore sc
  else
    qa <- index qs cur ;;
    expected <- prop "answer" answer qa ;;
    if JSString.strict_eq (JSString.toLowerCase userAnswer)
                          (JSString.toLowerCase expected) then
      modify (set_state (fun st => {| current := current st; score := score st + 1 |})) ;;
      printResult correct_message
    else
      match rd with
      | read_else_if =>
          len <- prop "length" string_length (value_of_string userAnswer) ;;
          if len >=? 1 then printResult wrong_message else ret tt
      | read_else => printResult wrong_message
      end.

(** [nextQuestion()]: [current] is incremented before the question is
    looked up. *)
Definition nextQuestion : M unit :=
  modify (set_state (fun st => {| current := current st + 1; score := score st |})) ;;
  qs <- get questions ;;
  cur <- get (fun app => current (state app)) ;;
  qa <- index qs cur ;;
  q <- prop "question" question qa ;;
  printQuestion q.

(** [init()]: the first page, then the three click listeners. *)
Definition init : M unit :=
  qs <- get questions ;;
  printFirstPage (length_of qs) ;;
  delegateListener play cb_startGame ;;
  delegateListener check_answer cb_checkAnswer ;;
  delegateListener next cb_nextQuestion.

(* ================================================================== *)
(** ** Clicks                                                          *)
(* ================================================================== *)

(** Calling a callback of [init] with the event. *)
Definition run_callback (rd : line210) (cb : callback) (event : click) : M unit :=
  match cb with
  | cb_startGame => startGame
  | cb_checkAnswer => checkAnswer rd event
  | cb_nextQuestion => nextQuestion
  end.

(** The listener [delegateListener] adds: the callback runs when the
    clicked element is among those the selector finds; what it throws is
    not caught and does not undo what it did.  [preventDefault] and
    [stopPropagation] leave the application object alone. *)
Definition listener (rd : line210) (l : elem_id * callback) (event : click)
  (app : QuizzardsApp) : QuizzardsApp :=
  if existsb (elem_eqb (target event)) (querySelectorAll (fst l) (view app))
  then exec (run_callback rd (snd l) event) app
  else app.

(** A click on the container runs its listeners in the order they were
    added. *)
Definition dispatch (rd : line210) (event : click) (app : QuizzardsApp)
  : QuizzardsApp :=
  fold_left (fun a l => listener rd l event a) (listeners (view app)) app.

(** The last four statements of the script: the application once
    [app.init()] has returned. *)
Definition boot (qs : QuestionsList) : QuizzardsApp :=
  exec init (new_QuizzardsApp new_QuizzardsView qs).

(** The application after a sequence of clicks. *)
Definition run (rd : line210) (qs : QuestionsList) (events : list click)
  : QuizzardsApp :=
  fold_left (fun a e => dispatch rd e a) events (boot qs).

(** The three user actions. *)
Definition Start : click := {| target := play; typed := "" |}.
Definition Submit (text : string) : click := {| target := check_answer; typed := text |}.
Definition Advance : click := {| target := next; typed := "" |}.

(** Render commands a computation issues from [app]. *)
Definition renders {A} (m : M A) (app : QuizzardsApp) : list screen :=
  skipn (List.length (rendered (view app))) (rendered (view (exec m app))).

(* ================================================================== *)
(** ** The run states of the specification, read off the application   *)
(* ================================================================== *)

(** The states of the run as the specification names them. *)
Inductive RunPhase : Type :=
| Idle
| AwaitingAnswer (index : Z)
| ShowingResult (index : Z) (correct : bool)
| Finished (final : Z).

(** The run state an application is in: decided by the screen shown,
    with the index and the score read from [state] and the screen. *)
Definition phase_of (app : QuizzardsApp) : option RunPhase :=
  match innerHTML (view app) with
  | None => None
  | Some (FirstPage _) => Some Idle
  | Some (QuestionPage _) => Some (AwaitingAnswer (current (state app)))
  | Some (ResultPage r) =>
      Some (ShowingResult (current (state app)) (String.eqb r correct_message))
  | Some (ScorePage sc) => Some (Finished sc)
  end.

(** A bank of one question. *)
Definition one_question : QuestionsList :=
  new_QuestionsList [PairArray "What is the capital of Syria?" "Damascus"].

(* ================================================================== *)
(** ** Definitions used in the statements                              *)
(* ================================================================== *)

(** The application with its counters set as the handlers set them. *)
Definition reset (app : QuizzardsApp) : QuizzardsApp :=
  set_state (fun _ => {| current := 0; score := 0 |}) app.

Definition scored (app : QuizzardsApp) : QuizzardsApp :=
  set_state (fun st => {| current := current st; score := score st + 1 |}) app.

Definition advanced (app : QuizzardsApp) : QuizzardsApp :=
  set_state (fun st => {| current := current st + 1; score := score st |}) app.

(** The listeners [init] adds. *)
Definition init_listeners : list (elem_id * callback) :=
  [(play, cb_startGame); (check_answer, cb_checkAnswer); (next, cb_nextQuestion)].

(** The handler a click reaches: the one whose selector finds the clicked
    element in the content shown when the click happens. *)
Definition handler_for (event : click) (app : QuizzardsApp) : option callback :=
  match target event, innerHTML (view app) with
  | play, Some (FirstPage _) | play, Some (ScorePage _) => Some cb_startGame
  | check_answer, Some (QuestionPage _) => Some cb_checkAnswer
  | next, Some (ResultPage _) => Some cb_nextQuestion
  | _, _ => None
  end.

(** What holds of the counters on each screen. *)
Definition counters_ok (len : Z) (s : screen) (st : State) : Prop :=
  match s with
  | FirstPage _ => current st = 0 /\ score st = 0
  | QuestionPage _ => 0 <= score st <= current st /\ current st < len
  | ResultPage _ =>
      0 <= score st /\ score st <= current st + 1 /\
      0 <= current st /\ current st + 1 < len
  | ScorePage _ => 0 <= score st <= current st /\ current st < len
  end.

Definition Inv (qs : QuestionsList) (app : QuizzardsApp) : Prop :=
  questions app = qs /\
  listeners (view app) = init_listeners /\
  exists s, innerHTML (view app) = Some s /\ counters_ok (length_of qs) s (state app).

(** The built-in bank, every question before the last answered rightly. *)
Definition five_right : list click :=
  [ Start; Submit "Damascus"; Advance; Submit "yes"; Advance; Submit "no";
    Advance; Submit "Berlin"; Advance; Submit "No"; Advance ].

(** A result screen on the only question of [one_question]; no run
    reaches it. *)
Definition result_on_last : QuizzardsApp :=
  {| view := {| innerHTML := Some (ResultPage correct_message);
                listeners := init_listeners;
                rendered := [FirstPage 1;
                             QuestionPage "What is the capital of Syria?";
                             ResultPage correct_message] |};
     questions := one_question;
     state := {| current := 0; score := 1 |} |}.

(** *** Strings with white space around them *)


Definition starts_with_whitespace (s : string) : bool :=
  match s with
  | EmptyString => false
  | String c _ => JSString.is_whitespace c
  end.

Fixpoint ends_with_whitespace (s : string) : bool :=
  match s with
  | EmptyString => false
  | String c EmptyString => JSString.is_whitespace c
  | String _ r => ends_with_whitespace r
  end.

(** *** Arguments and clicks built from a bank *)

(** A list of pairs as the constructor's arguments, every one an array. *)
Definition as_arguments (pairs : list (string * string)) : list constructor_arg :=
  map (fun p => PairArray (fst p) (snd p)) pairs.


(** A bank whose first stored answer starts with a space. *)
Definition padded_bank : QuestionsList :=
  new_QuestionsList [PairArray "Can fish fly?" " yes";
                     PairArray "Can chickens swim?" "no"].

(** *** Plain texts, matching answers, safe counters *)

(** A text without ["<"]: put into markup, it is text and nothing else. *)
Fixpoint plain_text (s : string) : bool :=
  match s with
  | EmptyString => true
  | String c r => negb (Ascii.eqb c "<") && plain_text r
  end.

(** Every question of the bank is a plain text. *)
Definition plain_bank (qs : QuestionsList) : bool :=
  forallb (fun qa => plain_text (question qa)) qs.

(** The comparison of line 205: the typed text, trimmed and lower-cased,
    is the stored answer lower-cased. *)
Definition matches (text : string) (qa : QuestionAnswer) : Prop :=
  JSString.toLowerCase (JSString.trim text) = JSString.toLowerCase (answer qa).

(** A number on which [++] adds exactly one. *)
Definition exact_increment (n : Z) : Prop := - 2 ^ 53 <= n < 2 ^ 53.

(** *** What a click can do to a running application *)

(** What a screen shows, against the bank and the counters. *)
Definition screen_ok (qs : QuestionsList) (s : screen) (st : State) : Prop :=
  match s with
  | FirstPage n => n = length_of qs
  | QuestionPage q =>
      exists qa, element_at qs (current st) = Some qa /\ q = question qa
  | ResultPage r => r = correct_message \/ r = wrong_message
  | ScorePage n => n = score st /\ current st = length_of qs - 1
  end.

Definition shown_ok (qs : QuestionsList) (app : QuizzardsApp) : Prop :=
  match innerHTML (view app) with
  | Some s => screen_ok qs s (state app)
  | None => False
  end.

(** What a click does to an application that a run has reached, case by
    case: no handler; Play on an empty bank; Play; an answer at the last
    index; a matching answer before it; a differing answer before it,
    under each reading of line 210; Next Question. *)
Inductive transition (rd : line210) (qs : QuestionsList) (e : click)
  (app : QuizzardsApp) : QuizzardsApp -> Prop :=
| t_no_handler :
    handler_for e app = None ->
    transition rd qs e app app
| t_start_empty :
    handler_for e app = Some cb_startGame ->
    element_at qs 0 = None ->
    transition rd qs e app app
| t_start (qa : QuestionAnswer) :
    handler_for e app = Some cb_startGame ->
    element_at qs 0 = Some qa ->
    transition rd qs e app (exec (printQuestion (question qa)) (reset app))
| t_finish :
    handler_for e app = Some cb_checkAnswer ->
    current (state app) = length_of qs - 1 ->
    transition rd qs e app (exec (printScore (score (state app))) app)
| t_correct (qa : QuestionAnswer) :
    handler_for e app = Some cb_checkAnswer ->
    current (state app) < length_of qs - 1 ->
    element_at qs (current (state app)) = Some qa ->
    matches (typed e) qa ->
    transition rd qs e app (exec (printResult correct_message) (scored app))
| t_differing_throws (qa : QuestionAnswer) :
    rd = read_else_if ->
    handler_for e app = Some cb_checkAnswer ->
    current (state app) < length_of qs - 1 ->
    element_at qs (current (state app)) = Some qa ->
    ~ matches (typed e) qa ->
    transition rd qs e app app
| t_differing_result (qa : QuestionAnswer) :
    rd = read_else ->
    handler_for e app = Some cb_checkAnswer ->
    current (state app) < length_of qs - 1 ->
    element_at qs (current (state app)) = Some qa ->
    ~ matches (typed e) qa ->
    transition rd qs e app (exec (printResult wrong_message) app)
| t_next (qa : QuestionAnswer) :
    handler_for e app = Some cb_nextQuestion ->
    element_at qs (current (state app) + 1) = Some qa ->
    transition rd qs e app (exec (printQuestion (question qa)) (advanced app)).

(** The moves between run states, with what each does to the score:
    [p], [sc] before the click and [p'], [sc'] after it. *)
Definition allowed_step (rd : line210) (qs : QuestionsList) (e : click)
  (p : option RunPhase) (sc : Z) (p' : option RunPhase) (sc' : Z) : Prop :=
  match p, p' with
  | Some Idle, Some (AwaitingAnswer j)
  | Some (Finished _), Some (AwaitingAnswer j) =>
      target e = play /\ j = 0 /\ sc' = 0
  | Some (AwaitingAnswer i), Some (ShowingResult j c) =>
      target e = check_answer /\ i < length_of qs - 1 /\ j = i /\
      exists qa, element_at qs i = Some qa /\
        ((c = true /\ matches (typed e) qa /\ sc' = sc + 1) \/
         (c = false /\ rd = read_else /\ ~ matches (typed e) qa /\ sc' = sc))
  | Some (AwaitingAnswer i), Some (Finished n) =>
      target e = check_answer /\ i = length_of qs - 1 /\ n = sc /\ sc' = sc
  | Some (ShowingResult i _), Some (AwaitingAnswer j) =>
      target e = next /\ j = i + 1 /\ sc' = sc
  | _, _ => False
  end.

(* ================================================================== *)
(** ** Basic facts                                                     *)
(* ================================================================== *)

Ltac js_unfold :=
  cbv [startGame checkAnswer nextQuestion init run_callback
       printScore printResult printQuestion printFirstPage printTemplate
       delegateListener querySelector_answer querySelectorAll
       index prop bind ret throw get modify set_view set_state
       exec outcome renders value_of_string];
  cbn [view questions state current score innerHTML listeners rendered
       fst snd target typed elements filter elem_eqb].

Lemma skipn_length_app {A} (l r : list A) : skipn (List.length l) (l ++ r) = r.
Proof. induction l as [|x l IH]; [reflexivity | exact IH]. Qed.

Lemma skipn_length_self {A} (l : list A) : skipn (List.length l) l = [].
Proof. induction l as [|x l IH]; [reflexivity | exact IH]. Qed.

Lemma length_of_nonneg (qs : QuestionsList) : 0 <= length_of qs.
Proof. unfold length_of. lia. Qed.

Lemma element_at_in_range (qs : QuestionsList) (i : Z) :
  0 <= i < length_of qs ->
  exists qa, element_at qs i = Some qa /\ nth_error qs (Z.to_nat i) = Some qa.
Proof.
  unfold element_at, length_of. intros Hi.
  destruct (Z.ltb_spec i 0) as [Hneg|_]; [lia|].
  destruct (nth_error qs (Z.to_nat i)) as [qa|] eqn:E.
  - exists qa. split; reflexivity.
  - apply nth_error_None in E. lia.
Qed.

Lemma element_at_out_of_range (qs : QuestionsList) (i : Z) :
  i < 0 \/ length_of qs <= i -> element_at qs i = None.
Proof.
  unfold element_at, length_of. intros Hi.
  destruct (Z.ltb_spec i 0) as [Hneg|Hpos]; [reflexivity|].
  apply nth_error_None. lia.
Qed.

Lemma element_at_0 (qa : QuestionAnswer) (rest : QuestionsList) :
  element_at (qa :: rest) 0 = Some qa.
Proof. reflexivity. Qed.

(** *** What each handler computes *)

Lemma startGame_defined (app : QuizzardsApp) (qa : QuestionAnswer) :
  element_at (questions app) 0 = Some qa ->
  startGame app = printQuestion (question qa) (reset app).
Proof.
  destruct app as [v qs st]. cbn [questions]. intros E.
  js_unfold. rewrite E. reflexivity.
Qed.

Lemma startGame_undefined (app : QuizzardsApp) :
  element_at (questions app) 0 = None ->
  startGame app = (Throw (TypeError "question"), reset app).
Proof.
  destruct app as [v qs st]. cbn [questions]. intros E.
  js_unfold. rewrite E. reflexivity.
Qed.


Lemma checkAnswer_last (rd : line210) (event : click) (app : QuizzardsApp) (q : string) :
  innerHTML (view app) = Some (QuestionPage q) ->
  length_of (questions app) - 1 <= current (state app) ->
  checkAnswer rd event app = printScore (score (state app)) app.
Proof.
  destruct app as [[h l r] qs [cur sc]]. cbn [view innerHTML questions state current score].
  intros -> Hlast. js_unfold.
  rewrite Z.geb_leb. destruct (Z.leb_spec (length_of qs - 1) cur); [reflexivity | lia].
Qed.

Lemma checkAnswer_match (rd : line210) (event : click) (app : QuizzardsApp) (q : string)
  (qa : QuestionAnswer) :
  innerHTML (view app) = Some (QuestionPage q) ->
  current (state app) < length_of (questions app) - 1 ->
  element_at (questions app) (current (state app)) = Some qa ->
  JSString.strict_eq (JSString.toLowerCase (JSString.trim (typed event)))
                     (JSString.toLowerCase (answer qa)) = true ->
  checkAnswer rd event app = printResult correct_message (scored app).
Proof.
  destruct app as [[h l r] qs [cur sc]]. cbn [view innerHTML questions state current score].
  intros -> Hlt Hqa Heq. js_unfold.
  rewrite Z.geb_leb. destruct (Z.leb_spec (length_of qs - 1) cur); [lia|].
  rewrite Hqa, Heq. reflexivity.
Qed.

Lemma checkAnswer_differing_else_if (event : click) (app : QuizzardsApp) (q : string)
  (qa : QuestionAnswer) :
  innerHTML (view app) = Some (QuestionPage q) ->
  current (state app) < length_of (questions app) - 1 ->
  element_at (questions app) (current (state app)) = Some qa ->
  JSString.strict_eq (JSString.toLowerCase (JSString.trim (typed event)))
                     (JSString.toLowerCase (answer qa)) = false ->
  checkAnswer read_else_if event app = (Throw (TypeError "length"), app).
Proof.
  destruct app as [[h l r] qs [cur sc]]. cbn [view innerHTML questions state current score].
  intros -> Hlt Hqa Heq. js_unfold.
  rewrite Z.geb_leb. destruct (Z.leb_spec (length_of qs - 1) cur); [lia|].
  rewrite Hqa, Heq. reflexivity.
Qed.

Lemma checkAnswer_differing_else (event : click) (app : QuizzardsApp) (q : string)
  (qa : QuestionAnswer) :
  innerHTML (view app) = Some (QuestionPage q) ->
  current (state app) < length_of (questions app) - 1 ->
  element_at (questions app) (current (state app)) = Some qa ->
  JSString.strict_eq (JSString.toLowerCase (JSString.trim (typed event)))
                     (JSString.toLowerCase (answer qa)) = false ->
  checkAnswer read_else event app = printResult wrong_message app.
Proof.
  destruct app as [[h l r] qs [cur sc]]. cbn [view innerHTML questions state current score].
  intros -> Hlt Hqa Heq. js_unfold.
  rewrite Z.geb_leb. destruct (Z.leb_spec (length_of qs - 1) cur); [lia|].
  rewrite Hqa, Heq. reflexivity.
Qed.

Lemma checkAnswer_undefined (rd : line210) (event : click) (app : QuizzardsApp) (q : string) :
  innerHTML (view app) = Some (QuestionPage q) ->
  current (state app) < length_of (questions app) - 1 ->
  element_at (questions app) (current (state app)) = None ->
  checkAnswer rd event app = (Throw (TypeError "answer"), app).
Proof.
  destruct app as [[h l r] qs [cur sc]]. cbn [view innerHTML questions state current score].
  intros -> Hlt Hqa. js_unfold.
  rewrite Z.geb_leb. destruct (Z.leb_spec (length_of qs - 1) cur); [lia|].
  rewrite Hqa. reflexivity.
Qed.

Lemma nextQuestion_defined (app : QuizzardsApp) (qa : QuestionAnswer) :
  element_at (questions app) (current (state app) + 1) = Some qa ->
  nextQuestion app = printQuestion (question qa) (advanced app).
Proof.
  destruct app as [v qs [cur sc]]. cbn [questions state current]. intros E.
  js_unfold. rewrite E. reflexivity.
Qed.

Lemma nextQuestion_undefined (app : QuizzardsApp) :
  element_at (questions app) (current (state app) + 1) = None ->
  nextQuestion app = (Throw (TypeError "question"), advanced app).
Proof.
  destruct app as [v qs [cur sc]]. cbn [questions state current]. intros E.
  js_unfold. rewrite E. reflexivity.
Qed.

(** *** Clicks with the listeners [init] adds *)

Lemma other_selector_misses (t sel : elem_id) (v : QuizzardsView) :
  elem_eqb sel t = false ->
  existsb (elem_eqb t) (querySelectorAll sel v) = false.
Proof.
  destruct v as [[[n|q|m|n]|] l r]; destruct t, sel;
    intros H; try discriminate H; reflexivity.
Qed.

Lemma handlers_keep_listeners (rd : line210) (cb : callback) (event : click) (app : QuizzardsApp) :
  listeners (view (exec (run_callback rd cb event) app)) = listeners (view app).
Proof.
  destruct app as [[h l r] qs [cur sc]]. destruct cb.
  - js_unfold. destruct (element_at qs 0); reflexivity.
  - destruct h as [[n|q|m|n]|]; js_unfold; try reflexivity.
    destruct (cur >=? length_of qs - 1); [reflexivity|].
    destruct (element_at qs cur) as [qa|]; [|reflexivity].
    destruct (JSString.strict_eq _ _); [reflexivity|].
    destruct rd; reflexivity.
  - js_unfold. destruct (element_at qs (cur + 1)); reflexivity.
Qed.

Lemma handlers_keep_questions (rd : line210) (cb : callback) (event : click) (app : QuizzardsApp) :
  questions (exec (run_callback rd cb event) app) = questions app.
Proof.
  destruct app as [[h l r] qs [cur sc]]. destruct cb.
  - js_unfold. destruct (element_at qs 0); reflexivity.
  - destruct h as [[n|q|m|n]|]; js_unfold; try reflexivity.
    destruct (cur >=? length_of qs - 1); [reflexivity|].
    destruct (element_at qs cur) as [qa|]; [|reflexivity].
    destruct (JSString.strict_eq _ _); [reflexivity|].
    destruct rd; reflexivity.
  - js_unfold. destruct (element_at qs (cur + 1)); reflexivity.
Qed.

Lemma dispatch_init_listeners (rd : line210) (event : click) (app : QuizzardsApp) :
  listeners (view app) = init_listeners ->
  dispatch rd event app =
    match handler_for event app with
    | Some cb => exec (run_callback rd cb event) app
    | None => app
    end.
Proof.
  intros Hl. unfold dispatch, handler_for, listener. rewrite Hl.
  cbn [init_listeners fold_left fst snd].
  destruct event as [t txt]. cbn [target].
  destruct t;
    repeat match goal with
    | |- context [existsb (elem_eqb ?t) (querySelectorAll ?sel ?v)] =>
        rewrite (other_selector_misses t sel v) by reflexivity
    end;
    destruct app as [[[[n|q|m|n]|] l r] qs st]; reflexivity.
Qed.

(* ================================================================== *)
(** ** The invariant of a run                                          *)
(* ================================================================== *)

Lemma Inv_boot (qs : QuestionsList) : Inv qs (boot qs).
Proof.
  unfold Inv, boot. js_unfold. repeat split.
  exists (FirstPage (length_of qs)). split; [reflexivity|]. split; reflexivity.
Qed.

Lemma Inv_dispatch (rd : line210) (qs : QuestionsList) (event : click) (app : QuizzardsApp) :
  Inv qs app -> Inv qs (dispatch rd event app).
Proof.
  intros (Hq & Hl & s & Hs & Hc).
  rewrite (dispatch_init_listeners rd _ _ Hl).
  destruct (handler_for event app) as [cb|] eqn:Hcb;
    [| repeat split; eauto].
  split; [rewrite handlers_keep_questions; exact Hq|].
  split; [rewrite handlers_keep_listeners; exact Hl|].
  unfold handler_for in Hcb. rewrite Hs in Hcb.
  subst qs. unfold exec.
  destruct (target event), s as [n|q|m|n]; try discriminate Hcb;
    injection Hcb as <-; cbn [run_callback counters_ok] in *.
  - (* Play on the first page *)
    destruct (element_at (questions app) 0) as [qa|] eqn:E.
    + rewrite (startGame_defined _ _ E).
      exists (QuestionPage (question qa)). split; [reflexivity|].
      cbn. pose proof (element_at_out_of_range (questions app) 0) as O.
      destruct (Z.le_gt_cases (length_of (questions app)) 0) as [L|L];
        [rewrite O in E by (right; exact L); discriminate E | lia].
    + rewrite (startGame_undefined _ E).
      exists (FirstPage n). split; [exact Hs|]. cbn. split; reflexivity.
  - (* Play again on the score page *)
    destruct (element_at_in_range (questions app) 0) as (qa & E & _); [lia|].
    rewrite (startGame_defined _ _ E).
    exists (QuestionPage (question qa)). split; [reflexivity|]. cbn. lia.
  - (* Answer on a question page *)
    destruct (Z.le_gt_cases (length_of (questions app) - 1) (current (state app)))
      as [Last|NotLast].
    + rewrite (checkAnswer_last rd _ _ _ Hs Last).
      exists (ScorePage (score (state app))). split; [reflexivity|]. cbn. lia.
    + destruct (element_at_in_range (questions app) (current (state app)))
        as (qa & E & _); [lia|].
      destruct (JSString.strict_eq
                  (JSString.toLowerCase (JSString.trim (typed event)))
                  (JSString.toLowerCase (answer qa))) eqn:Cmp.
      * rewrite (checkAnswer_match rd _ _ _ _ Hs NotLast E Cmp).
        exists (ResultPage correct_message). split; [reflexivity|]. cbn. lia.
      * destruct rd.
        -- rewrite (checkAnswer_differing_else_if _ _ _ _ Hs NotLast E Cmp).
           exists (QuestionPage q). split; [exact Hs|]. cbn. lia.
        -- rewrite (checkAnswer_differing_else _ _ _ _ Hs NotLast E Cmp).
           exists (ResultPage wrong_message). split; [reflexivity|]. cbn. lia.
  - (* Next Question on a result page *)
    destruct (element_at_in_range (questions app) (current (state app) + 1))
      as (qa & E & _); [lia|].
    rewrite (nextQuestion_defined _ _ E).
    exists (QuestionPage (question qa)). split; [reflexivity|]. cbn. lia.
Qed.

Lemma Inv_fold (rd : line210) (qs : QuestionsList) (events : list click) (app : QuizzardsApp) :
  Inv qs app -> Inv qs (fold_left (fun a e => dispatch rd e a) events app).
Proof.
  revert app. induction events as [|e events IH]; intros app H; cbn [fold_left].
  - exact H.
  - apply IH, Inv_dispatch, H.
Qed.

Lemma Inv_run (rd : line210) (qs : QuestionsList) (events : list click) : Inv qs (run rd qs events).
Proof. apply Inv_fold, Inv_boot. Qed.

(* ================================================================== *)
(** ** Submitting an answer                                            *)
(* ================================================================== *)

(** Before the last index, a submission that equals the stored answer
    once trimmed and lower-cased adds one to the score and prints the
    success result. *)
Lemma submit_matching_before_last (rd : line210) (event : click) (app : QuizzardsApp) (i : Z)
  (qa : QuestionAnswer) :
  phase_of app = Some (AwaitingAnswer i) ->
  i < length_of (questions app) - 1 ->
  element_at (questions app) i = Some qa ->
  JSString.toLowerCase (JSString.trim (typed event)) = JSString.toLowerCase (answer qa) ->
  outcome (checkAnswer rd event) app = Normal tt /\
  renders (checkAnswer rd event) app = [ResultPage correct_message] /\
  score (state (exec (checkAnswer rd event) app)) = score (state app) + 1 /\
  phase_of (exec (checkAnswer rd event) app) = Some (ShowingResult i true).
Proof.
  unfold phase_of. intros Hp Hlt Hqa Heq.
  destruct (innerHTML (view app)) as [[n|q|m|n]|] eqn:Hs; try discriminate Hp.
  injection Hp as <-.
  assert (Cmp : JSString.strict_eq
                  (JSString.toLowerCase (JSString.trim (typed event)))
                  (JSString.toLowerCase (answer qa)) = true)
    by (apply String.eqb_eq, Heq).
  unfold outcome, renders, exec.
  rewrite (checkAnswer_match rd _ _ _ _ Hs Hlt Hqa Cmp).
  js_unfold. rewrite skipn_length_app. repeat split; reflexivity.
Qed.

(** At the last index (and beyond) nothing is compared: the score screen
    is printed with the score as it stands. *)
Lemma submit_at_last (rd : line210) (event : click) (app : QuizzardsApp) (i : Z) :
  phase_of app = Some (AwaitingAnswer i) ->
  length_of (questions app) - 1 <= i ->
  outcome (checkAnswer rd event) app = Normal tt /\
  renders (checkAnswer rd event) app = [ScorePage (score (state app))] /\
  state (exec (checkAnswer rd event) app) = state app /\
  phase_of (exec (checkAnswer rd event) app) = Some (Finished (score (state app))).
Proof.
  unfold phase_of. intros Hp Hlast.
  destruct (innerHTML (view app)) as [[n|q|m|n]|] eqn:Hs; try discriminate Hp.
  injection Hp as <-.
  unfold outcome, renders, exec. rewrite (checkAnswer_last rd _ _ _ Hs Hlast).
  js_unfold. rewrite skipn_length_app. repeat split; reflexivity.
Qed.

(** Before the last index, a submission that differs from the stored
    answer leaves the counters as they are.  With line 210 read as
    [else if] it ends in a [TypeError], raised by
    [userAnswer.value.length], and nothing is printed; read as [else] it
    prints the failure result. *)
Lemma submit_differing_before_last (rd : line210) (event : click)
  (app : QuizzardsApp) (i : Z) (qa : QuestionAnswer) :
  phase_of app = Some (AwaitingAnswer i) ->
  i < length_of (questions app) - 1 ->
  element_at (questions app) i = Some qa ->
  ~ matches (typed event) qa ->
  state (exec (checkAnswer rd event) app) = state app /\
  match rd with
  | read_else_if =>
      checkAnswer rd event app = (Throw (TypeError "length"), app)
  | read_else =>
      checkAnswer rd event app = printResult wrong_message app
  end.
Proof.
  unfold phase_of, matches. intros Hp Hlt Hqa Hne.
  destruct (innerHTML (view app)) as [[n|q|m|n]|] eqn:Hs; try discriminate Hp.
  injection Hp as <-.
  assert (Cmp : JSString.strict_eq
                  (JSString.toLowerCase (JSString.trim (typed event)))
                  (JSString.toLowerCase (answer qa)) = false)
    by (apply String.eqb_neq, Hne).
  unfold exec. destruct rd.
  - rewrite (checkAnswer_differing_else_if _ _ _ _ Hs Hlt Hqa Cmp). split; reflexivity.
  - rewrite (checkAnswer_differing_else _ _ _ _ Hs Hlt Hqa Cmp). split; reflexivity.
Qed.

(* ================================================================== *)
(** ** What a click does in a run                                      *)
(* ================================================================== *)

Lemma handler_for_startGame (e : click) (app : QuizzardsApp) :
  handler_for e app = Some cb_startGame ->
  target e = play /\
  (phase_of app = Some Idle \/ exists n, phase_of app = Some (Finished n)).
Proof.
  unfold handler_for, phase_of.
  destruct (target e), (innerHTML (view app)) as [[n|q|m|n]|];
    intros H; try discriminate H; split; try reflexivity.
  - left. reflexivity.
  - right. exists n. reflexivity.
Qed.

Lemma handler_for_checkAnswer (e : click) (app : QuizzardsApp) :
  handler_for e app = Some cb_checkAnswer ->
  target e = check_answer /\
  phase_of app = Some (AwaitingAnswer (current (state app))) /\
  exists q, innerHTML (view app) = Some (QuestionPage q).
Proof.
  unfold handler_for, phase_of.
  destruct (target e), (innerHTML (view app)) as [[n|q|m|n]|];
    intros H; try discriminate H.
  repeat split. exists q. reflexivity.
Qed.

Lemma handler_for_nextQuestion (e : click) (app : QuizzardsApp) :
  handler_for e app = Some cb_nextQuestion ->
  target e = next /\
  exists c, phase_of app = Some (ShowingResult (current (state app)) c).
Proof.
  unfold handler_for, phase_of.
  destruct (target e), (innerHTML (view app)) as [[n|q|m|n]|];
    intros H; try discriminate H.
  split; [reflexivity|]. eexists. reflexivity.
Qed.

Lemma dispatch_transition (rd : line210) (qs : QuestionsList) (e : click)
  (app : QuizzardsApp) :
  Inv qs app -> transition rd qs e app (dispatch rd e app).
Proof.
  intros (Hq & Hl & s & Hs & Hc).
  rewrite (dispatch_init_listeners rd _ _ Hl).
  destruct (handler_for e app) as [cb|] eqn:Hcb; [|apply t_no_handler; exact Hcb].
  pose proof Hcb as Hcb'. unfold handler_for in Hcb'. rewrite Hs in Hcb'.
  subst qs. unfold exec at 1.
  destruct (target e) eqn:Ht, s as [n|q|m|n]; try discriminate Hcb';
    injection Hcb' as <-; cbn [run_callback counters_ok] in *.
  - (* Play on the first page *)
    destruct (element_at (questions app) 0) as [qa|] eqn:E.
    + rewrite (startGame_defined _ _ E). apply (t_start _ _ _ _ qa); assumption.
    + rewrite (startGame_undefined _ E). cbn [snd].
      assert (R : reset app = app)
        by (destruct app as [v qs [cur sc]]; cbn in Hc; destruct Hc as [-> ->];
            reflexivity).
      rewrite R. apply t_start_empty; assumption.
  - (* Play again on the score page *)
    destruct (element_at_in_range (questions app) 0) as (qa & E & _); [lia|].
    rewrite (startGame_defined _ _ E). apply (t_start _ _ _ _ qa); assumption.
  - (* Answer on a question page *)
    destruct (Z.le_gt_cases (length_of (questions app) - 1) (current (state app)))
      as [Last|NotLast].
    + rewrite (checkAnswer_last rd _ _ _ Hs Last). apply t_finish; [exact Hcb | lia].
    + destruct (element_at_in_range (questions app) (current (state app)))
        as (qa & E & _); [lia|].
      destruct (JSString.strict_eq
                  (JSString.toLowerCase (JSString.trim (typed e)))
                  (JSString.toLowerCase (answer qa))) eqn:Cmp.
      * rewrite (checkAnswer_match rd _ _ _ _ Hs NotLast E Cmp).
        apply (t_correct _ _ _ _ qa); try assumption.
        apply String.eqb_eq, Cmp.
      * assert (D : ~ matches (typed e) qa) by (apply String.eqb_neq, Cmp).
        destruct rd.
        -- rewrite (checkAnswer_differing_else_if _ _ _ _ Hs NotLast E Cmp).
           apply (t_differing_throws _ _ _ _ qa); try assumption. reflexivity.
        -- rewrite (checkAnswer_differing_else _ _ _ _ Hs NotLast E Cmp).
           apply (t_differing_result _ _ _ _ qa); try assumption. reflexivity.
  - (* Next Question on a result page *)
    destruct (element_at_in_range (questions app) (current (state app) + 1))
      as (qa & E & _); [lia|].
    rewrite (nextQuestion_defined _ _ E). apply (t_next _ _ _ _ qa); assumption.
Qed.

Lemma shown_ok_boot (qs : QuestionsList) : shown_ok qs (boot qs).
Proof. reflexivity. Qed.

Lemma shown_ok_transition (rd : line210) (qs : QuestionsList) (e : click)
  (app app' : QuizzardsApp) :
  transition rd qs e app app' -> shown_ok qs app -> shown_ok qs app'.
Proof.
  intros T H.
  destruct T as [_|_ _|qa _ E|_ L|qa _ _ _ _|qa _ _ _ _ _|qa _ _ _ _ _|qa _ E];
    try exact H;
    unfold shown_ok; js_unfold;
    cbn [screen_ok reset scored advanced set_state state current score].
  - exists qa. split; [exact E | reflexivity].
  - split; [reflexivity | exact L].
  - left. reflexivity.
  - right. reflexivity.
  - exists qa. split; [exact E | reflexivity].
Qed.

Lemma shown_ok_run (rd : line210) (qs : QuestionsList) (events : list click) :
  shown_ok qs (run rd qs events).
Proof.
  unfold run.
  assert (G : forall app, Inv qs app -> shown_ok qs app ->
              shown_ok qs (fold_left (fun a e => dispatch rd e a) events app)).
  { induction events as [|e events IH]; intros app I S; cbn [fold_left]; [exact S|].
    apply IH; [apply Inv_dispatch, I|].
    exact (shown_ok_transition rd _ _ _ _ (dispatch_transition rd _ e _ I) S). }
  apply G; [apply Inv_boot | apply shown_ok_boot].
Qed.

Lemma transition_trace (rd : line210) (qs : QuestionsList) (e : click)
  (app app' : QuizzardsApp) :
  transition rd qs e app app' ->
  exists l,
    rendered (view app') = (rendered (view app) ++ l)%list /\
    (List.length l <= 1)%nat /\
    match l with
    | [] => innerHTML (view app') = innerHTML (view app)
    | s :: _ => innerHTML (view app') = Some s
    end.
Proof.
  intros T.
  destruct T as [_|_ _|qa _ _|_ _|qa _ _ _ _|qa _ _ _ _ _|qa _ _ _ _ _|qa _ _].
  - exists []. rewrite app_nil_r. repeat split. apply Nat.le_0_l.
  - exists []. rewrite app_nil_r. repeat split. apply Nat.le_0_l.
  - exists [QuestionPage (question qa)]. repeat split. apply Nat.le_refl.
  - exists [ScorePage (score (state app))]. repeat split. apply Nat.le_refl.
  - exists [ResultPage correct_message]. repeat split. apply Nat.le_refl.
  - exists []. rewrite app_nil_r. repeat split. apply Nat.le_0_l.
  - exists [ResultPage wrong_message]. repeat split. apply Nat.le_refl.
  - exists [QuestionPage (question qa)]. repeat split. apply Nat.le_refl.
Qed.

Lemma dispatch_on_question (rd : line210) (qs : QuestionsList) (text q : string)
  (app : QuizzardsApp) :
  Inv qs app -> innerHTML (view app) = Some (QuestionPage q) ->
  dispatch rd (Submit text) app = exec (checkAnswer rd (Submit text)) app.
Proof.
  intros (_ & Hl & _) Hs. rewrite (dispatch_init_listeners rd _ _ Hl).
  unfold handler_for. rewrite Hs. reflexivity.
Qed.

Lemma awaiting_shows_question (app : QuizzardsApp) (i : Z) :
  phase_of app = Some (AwaitingAnswer i) ->
  i = current (state app) /\ exists q, innerHTML (view app) = Some (QuestionPage q).
Proof.
  unfold phase_of. destruct (innerHTML (view app)) as [[n|q|m|n]|]; try discriminate.
  intros H. injection H as <-. split; [reflexivity | exists q; reflexivity].
Qed.

(** In a run, before the last index, a submission that differs from the
    stored answer leaves the counters as they are; with line 210 read as
    [else if] the whole application stays as it was, read as [else] the
    failure result is printed, once. *)
Lemma differing_submission_in_run (rd : line210) (qs : QuestionsList)
  (events : list click) (i : Z) (qa : QuestionAnswer) (text : string) :
  phase_of (run rd qs events) = Some (AwaitingAnswer i) ->
  i < length_of qs - 1 ->
  element_at qs i = Some qa ->
  ~ matches text qa ->
  let app := run rd qs events in
  let app' := dispatch rd (Submit text) app in
  state app' = state app /\
  match rd with
  | read_else_if => app' = app
  | read_else =>
      phase_of app' = Some (ShowingResult i false) /\
      rendered (view app') = (rendered (view app) ++ [ResultPage wrong_message])%list
  end.
Proof.
  intros Hp Hlt Hqa Hne. cbv zeta.
  pose proof (Inv_run rd qs events) as I.
  destruct (awaiting_shows_question _ _ Hp) as (Hi & q & Hs).
  rewrite (dispatch_on_question rd _ _ _ _ I Hs).
  destruct I as (Hq & _). rewrite <- Hq in Hlt, Hqa.
  destruct (submit_differing_before_last rd (Submit text) _ i qa Hp Hlt Hqa Hne)
    as (St & R).
  split; [exact St|]. unfold exec. destruct rd; rewrite R.
  - reflexivity.
  - subst i. unfold phase_of. js_unfold. split; reflexivity.
Qed.

(* ================================================================== *)
(** ** The claims                                                      *)
(* ================================================================== *)

(** C1 (the code departs from the claim).  The claim: a Submit at every
    index, the last included, grades the submission and shows a result
    screen, and the score screen comes only with the following Advance.
    The code at the last index: with the one-question bank, after Start
    the submission "damascus" equals the stored answer once trimmed and
    lower-cased, yet [checkAnswer] prints the score screen at once, with
    the score still 0, and no result screen is printed.  Line 210 is not
    on this path: the same under both readings. *)
Theorem C1_last_submission_is_not_graded (rd : line210) :
  let app := run rd one_question [Start] in
  let event := Submit "damascus" in
  phase_of app = Some (AwaitingAnswer 0) /\
  current (state app) = length_of (questions app) - 1 /\
  JSString.toLowerCase (JSString.trim (typed event)) = JSString.toLowerCase "Damascus" /\
  outcome (checkAnswer rd event) app = Normal tt /\
  renders (checkAnswer rd event) app = [ScorePage 0] /\
  score (state (dispatch rd event app)) = 0 /\
  phase_of (dispatch rd event app) = Some (Finished 0).
Proof. destruct rd; vm_compute; repeat split; reflexivity. Qed.

(** C2, as stated, fails under either reading of line 210: on the
    built-in bank, after Start and the right answer to the first question
    the score is 1 while the current index is still 0. *)
Lemma C2_counterexample :
  ~ (exists rd : line210, forall events : list click,
       let st := state (run rd questions_const events) in
       0 <= score st /\ score st <= current st /\
       current st <= length_of questions_const).
Proof.
  intros [rd H]. specialize (H [Start; Submit "Damascus"]).
  assert (E : state (run rd questions_const [Start; Submit "Damascus"])
              = {| current := 0; score := 1 |})
    by (destruct rd; vm_compute; reflexivity).
  cbv zeta in H. rewrite E in H. cbn [score current] in H. lia.
Qed.

(** C2 (amended).  On a bank of plain question texts, after any sequence
    of clicks, 0 <= score <= current + 1 and 0 <= current <= length; and
    score <= current on every screen but the result screen, where the
    answer just given has been counted and the index not yet advanced. *)
Theorem C2_run_invariant (rd : line210) (qs : QuestionsList) (events : list click) :
  plain_bank qs = true ->
  let app := run rd qs events in
  let st := state app in
  0 <= score st /\ score st <= current st + 1 /\
  0 <= current st /\ current st <= length_of qs /\
  match phase_of app with
  | Some (ShowingResult _ _) => score st <= current st + 1
  | _ => score st <= current st
  end.
Proof.
  intros _. cbv zeta. destruct (Inv_run rd qs events) as (_ & _ & s & Hs & Hc).
  unfold phase_of. rewrite Hs.
  pose proof (length_of_nonneg qs).
  destruct s; cbn [counters_ok] in Hc; lia.
Qed.

Lemma C2_run_invariant_witness :
  let app := run read_else questions_const [Start; Submit "Damascus"] in
  let st := state app in
  plain_bank questions_const = true /\
  0 <= score st /\ score st <= current st + 1 /\
  0 <= current st /\ current st <= length_of questions_const /\
  match phase_of app with
  | Some (ShowingResult _ _) => score st <= current st + 1
  | _ => score st <= current st
  end.
Proof.
  split; [reflexivity|].
  apply (C2_run_invariant read_else questions_const [Start; Submit "Damascus"]).
  reflexivity.
Defined.

(** C3 (the code departs from the claim).  The claim: at every index a
    submission that equals the stored answer once trimmed and lower-cased
    yields ShowingResult(i, true) and one more point.  [" damascus  "]
    does match ["Damascus"]; but at the last index of the built-in bank,
    reached with five right answers, the matching submission [" nO "]
    leaves the score at 5 and prints the score screen, not a result.
    Line 210 is not on this path: the same under both readings. *)
Theorem C3_matching_answer_at_last_index (rd : line210) :
  let app := run rd questions_const five_right in
  let event := Submit " nO " in
  JSString.toLowerCase (JSString.trim " damascus  ") = JSString.toLowerCase "Damascus" /\
  phase_of app = Some (AwaitingAnswer 5) /\
  score (state app) = 5 /\
  element_at (questions app) 5 =
    Some {| question := "Are JavaScript and Java the same programming language?";
            answer := "No" |} /\
  JSString.toLowerCase (JSString.trim (typed event)) = JSString.toLowerCase "No" /\
  renders (checkAnswer rd event) app = [ScorePage 5] /\
  score (state (dispatch rd event app)) = 5 /\
  phase_of (dispatch rd event app) = Some (Finished 5).
Proof. destruct rd; vm_compute; repeat split; reflexivity. Qed.






(** C6 (the code departs from the claim).  The claim: at every index
    with a stored answer that is not empty, the empty submission is
    graded incorrect, with a failure message on a result screen.  The
    code at the last index: with the one-question bank, after Start the
    empty submission leaves the score at 0 and nothing throws, but
    [checkAnswer] prints the score screen: no failure message, no result
    screen.  This is the guard of lines 203-204 again, as in C1; line 210
    is not on this path, so the same under both readings. *)
Theorem C6_empty_submission_at_last_index (rd : line210) :
  let app := run rd one_question [Start] in
  let event := Submit "" in
  phase_of app = Some (AwaitingAnswer 0) /\
  option_map answer (element_at (questions app) 0) = Some "Damascus" /\
  outcome (checkAnswer rd event) app = Normal tt /\
  renders (checkAnswer rd event) app = [ScorePage 0] /\
  score (state (dispatch rd event app)) = score (state app) /\
  phase_of (dispatch rd event app) = Some (Finished 0) /\
  phase_of (dispatch rd event app) <> Some (ShowingResult 0 false).
Proof.
  destruct rd; vm_compute; repeat split; try reflexivity;
    intros H; discriminate H.
Qed.

(** C7, as stated, fails: on an empty bank [startGame] ends in no error
    that the code raises itself on finding the bank empty (it has no
    [throw]); what is thrown is the [TypeError] of reading [question] off
    [undefined], on the way to printing that question. *)
Lemma C7_counterexample :
  ~ (forall app : QuizzardsApp,
       length_of (questions app) = 0 ->
       exists message, outcome startGame app = Throw (Thrown message)).
Proof.
  intros H. destruct (H (boot []) eq_refl) as [message Hm].
  vm_compute in Hm. discriminate Hm.
Qed.

(** C7 (amended).  On an empty bank [init] has printed the first page,
    for 0 questions; [startGame] then sets both counters to 0, and
    reading [question] off the [undefined] [questions[0]] throws a
    [TypeError] before [printQuestion] is called: the Start prints
    nothing and the content of the container stays as it was. *)
Theorem C7_startGame_on_empty_bank (app : QuizzardsApp)
  (Hempty : length_of (questions app) = 0) :
  rendered (view (boot (questions app))) = [FirstPage 0] /\
  outcome startGame app = Throw (TypeError "question") /\
  state (exec startGame app) = {| current := 0; score := 0 |} /\
  renders startGame app = [] /\
  view (exec startGame app) = view app.
Proof.
  assert (E : element_at (questions app) 0 = None)
    by (apply element_at_out_of_range; right; lia).
  split.
  - rewrite <- Hempty. reflexivity.
  - unfold outcome, renders, exec. rewrite (startGame_undefined _ E).
    cbn [fst snd]. unfold reset, set_state. cbn [view state].
    rewrite skipn_length_self. repeat split; reflexivity.
Qed.

Lemma C7_startGame_on_empty_bank_witness :
  length_of (questions (boot [])) = 0 /\
  rendered (view (boot (questions (boot [])))) = [FirstPage 0] /\
  outcome startGame (boot []) = Throw (TypeError "question") /\
  state (exec startGame (boot [])) = {| current := 0; score := 0 |} /\
  renders startGame (boot []) = [] /\
  view (exec startGame (boot [])) = view (boot []).
Proof.
  split; [reflexivity|].
  apply (C7_startGame_on_empty_bank (boot [])). reflexivity.
Defined.

(** C8.  From every state of the application [startGame] leaves
    [score] and [current] at 0; and when the bank has a question at
    index 0 it completes normally, printing that question and nothing
    else. *)
Theorem C8_startGame_resets (app : QuizzardsApp) :
  state (exec startGame app) = {| current := 0; score := 0 |} /\
  (0 < length_of (questions app) ->
   exists qa,
     element_at (questions app) 0 = Some qa /\
     outcome startGame app = Normal tt /\
     renders startGame app = [QuestionPage (question qa)] /\
     phase_of (exec startGame app) = Some (AwaitingAnswer 0)).
Proof.
  split.
  - unfold exec. destruct (element_at (questions app) 0) as [qa|] eqn:E.
    + rewrite (startGame_defined _ _ E). reflexivity.
    + rewrite (startGame_undefined _ E). reflexivity.
  - intros Hlen.
    destruct (element_at_in_range (questions app) 0) as (qa & E & _); [lia|].
    exists qa. split; [exact E|].
    unfold outcome, renders, exec. rewrite (startGame_defined _ _ E).
    js_unfold. rewrite skipn_length_app. repeat split; reflexivity.
Qed.

Lemma C8_startGame_resets_witness :
  let app := run read_else one_question [Start; Submit "Aleppo"] in
  phase_of app = Some (Finished 0) /\
  0 < length_of (questions app) /\
  state (exec startGame app) = {| current := 0; score := 0 |} /\
  exists qa,
    element_at (questions app) 0 = Some qa /\
    outcome startGame app = Normal tt /\
    renders startGame app = [QuestionPage (question qa)] /\
    phase_of (exec startGame app) = Some (AwaitingAnswer 0).
Proof.
  split; [reflexivity|]. split; [reflexivity|].
  split.
  - apply (proj1 (C8_startGame_resets (run read_else one_question [Start; Submit "Aleppo"]))).
  - apply (proj2 (C8_startGame_resets (run read_else one_question [Start; Submit "Aleppo"]))).
    reflexivity.
Defined.

(** C9, as stated, fails in its second half: indexing the built-in bank
    at 6, its length, completes normally with [undefined]. *)
Lemma C9_counterexample :
  ~ (forall (qs : QuestionsList) (i : Z) (app : QuizzardsApp),
       i < 0 \/ length_of qs <= i ->
       exists e, outcome (index qs i) app = Throw e).
Proof.
  intros H.
  destruct (H questions_const 6 (boot questions_const)) as [e He].
  - right. vm_compute. intros C; discriminate C.
  - vm_compute in He. discriminate He.
Qed.

(** C9 (amended).  Indexing the bank never fails: at an index in
    [0, length) it yields the pair stored at that position, and at every
    other index it yields [undefined]. *)
Theorem C9_indexing (qs : QuestionsList) (i : Z) (app : QuizzardsApp) :
  (0 <= i < length_of qs ->
   exists qa, nth_error qs (Z.to_nat i) = Some qa /\
              index qs i app = (Normal (Some qa), app)) /\
  (i < 0 \/ length_of qs <= i -> index qs i app = (Normal None, app)).
Proof.
  unfold index, ret. split.
  - intros Hi. destruct (element_at_in_range qs i Hi) as (qa & E & N).
    exists qa. rewrite E. split; [exact N | reflexivity].
  - intros Hi. rewrite (element_at_out_of_range qs i Hi). reflexivity.
Qed.

Lemma C9_indexing_witness :
  let app := boot questions_const in
  (0 <= 3 < length_of questions_const) /\
  (exists qa, nth_error questions_const (Z.to_nat 3) = Some qa /\
              index questions_const 3 app = (Normal (Some qa), app)) /\
  (6 < 0 \/ length_of questions_const <= 6) /\
  index questions_const 6 app = (Normal None, app).
Proof.
  assert (In3 : 0 <= 3 < length_of questions_const) by (vm_compute; split; [discriminate | reflexivity]).
  assert (Out6 : 6 < 0 \/ length_of questions_const <= 6) by (right; vm_compute; discriminate).
  split; [exact In3|]. split.
  - exact (proj1 (C9_indexing questions_const 3 (boot questions_const)) In3).
  - split; [exact Out6|].
    exact (proj2 (C9_indexing questions_const 6 (boot questions_const)) Out6).
Defined.

(** C10.  [checkAnswer] leaves [state.current] as it found it, whatever
    the state, the submission and the reading of line 210, and however
    it completes; [nextQuestion] adds one to it, the counter being a
    number on which [++] is exact; [startGame] sets it to 0; and printing
    does not touch the state. *)
Theorem C10_current_index_frame (rd : line210) (event : click) (app : QuizzardsApp) :
  current (state (exec (checkAnswer rd event) app)) = current (state app) /\
  (exact_increment (current (state app)) ->
   current (state (exec nextQuestion app)) = current (state app) + 1) /\
  current (state (exec startGame app)) = 0 /\
  (forall s, state (exec (printTemplate s) app) = state app).
Proof.
  destruct app as [[h l r] qs [cur sc]]. repeat split.
  - destruct h as [[n|q|m|n]|]; js_unfold; try reflexivity.
    destruct (cur >=? length_of qs - 1); [reflexivity|].
    destruct (element_at qs cur) as [qa|]; [|reflexivity].
    destruct (JSString.strict_eq _ _); [reflexivity|].
    destruct rd; reflexivity.
  - intros _. js_unfold. destruct (element_at qs (cur + 1)); reflexivity.
  - js_unfold. destruct (element_at qs 0); reflexivity.
Qed.

Lemma C10_current_index_frame_witness :
  let app := run read_else questions_const [Start; Submit "Damascus"] in
  exact_increment (current (state app)) /\
  current (state (exec (checkAnswer read_else (Submit "yes")) app)) = current (state app) /\
  current (state (exec nextQuestion app)) = current (state app) + 1 /\
  current (state (exec startGame app)) = 0.
Proof.
  assert (B : exact_increment
                (current (state (run read_else questions_const
                                   [Start; Submit "Damascus"]))))
    by (vm_compute; split; [discriminate | reflexivity]).
  split; [exact B|].
  pose proof (C10_current_index_frame read_else (Submit "yes")
                (run read_else questions_const [Start; Submit "Damascus"]))
    as (F & N & S & _).
  split; [exact F|]. split; [exact (N B) | exact S].
Defined.

(* ================================================================== *)
(** ** Further properties of the code                                  *)
(* ================================================================== *)

(** *** [trim] and [toLowerCase] *)

Lemma is_whitespace_lower_char (c : ascii) :
  JSString.is_whitespace (JSString.lower_char c) = JSString.is_whitespace c.
Proof. destruct c as [[] [] [] [] [] [] [] []]; vm_compute; reflexivity. Qed.

Lemma trimStart_toLowerCase (s : string) :
  JSString.trimStart (JSString.toLowerCase s) = JSString.toLowerCase (JSString.trimStart s).
Proof.
  induction s as [|c r IH]; [reflexivity|].
  cbn [JSString.toLowerCase JSString.trimStart].
  rewrite is_whitespace_lower_char.
  destruct (JSString.is_whitespace c); [exact IH | reflexivity].
Qed.

Lemma trimEnd_toLowerCase (s : string) :
  JSString.trimEnd (JSString.toLowerCase s) = JSString.toLowerCase (JSString.trimEnd s).
Proof.
  induction s as [|c r IH]; [reflexivity|].
  cbn [JSString.toLowerCase JSString.trimEnd]. rewrite IH.
  destruct (JSString.trimEnd r) as [|d r']; cbn [JSString.toLowerCase].
  - rewrite is_whitespace_lower_char.
    destruct (JSString.is_whitespace c); reflexivity.
  - reflexivity.
Qed.

Lemma trim_toLowerCase (s : string) :
  JSString.trim (JSString.toLowerCase s) = JSString.toLowerCase (JSString.trim s).
Proof. unfold JSString.trim. rewrite trimStart_toLowerCase. apply trimEnd_toLowerCase. Qed.







Lemma trimStart_head (s : string) (c : ascii) (r : string) :
  JSString.trimStart s = String c r -> JSString.is_whitespace c = false.
Proof.
  induction s as [|d t IH]; [discriminate|]. cbn [JSString.trimStart].
  destruct (JSString.is_whitespace d) eqn:E; [exact IH|].
  intros H. injection H as <- _. exact E.
Qed.

Lemma trimEnd_head (s : string) (c : ascii) (r : string) :
  JSString.trimEnd s = String c r -> exists t, s = String c t.
Proof.
  destruct s as [|d t]; [discriminate|]. cbn [JSString.trimEnd].
  destruct (JSString.trimEnd t); [destruct (JSString.is_whitespace d)|];
    intros H; try discriminate H; injection H as <- _; exists t; reflexivity.
Qed.

Lemma trim_head (s : string) (c : ascii) (r : string) :
  JSString.trim s = String c r -> JSString.is_whitespace c = false.
Proof.
  unfold JSString.trim. intros H.
  destruct (trimEnd_head _ _ _ H) as [t Ht]. exact (trimStart_head _ _ _ Ht).
Qed.

Lemma trimEnd_last (s y : string) (d : ascii) :
  JSString.trimEnd s = (y ++ String d EmptyString)%string ->
  JSString.is_whitespace d = false.
Proof.
  revert y. induction s as [|a r IH]; intros y.
  - destruct y; discriminate.
  - cbn [JSString.trimEnd]. destruct (JSString.trimEnd r) as [|b r'] eqn:E.
    + destruct (JSString.is_whitespace a) eqn:Wa.
      * destruct y; discriminate.
      * destruct y as [|y0 y']; cbn [String.append]; intros H.
        -- injection H as <-. exact Wa.
        -- injection H as _ H. destruct y'; discriminate H.
    + destruct y as [|y0 y']; cbn [String.append]; intros H.
      * injection H as _ H. discriminate H.
      * injection H as _ H. exact (IH y' H).
Qed.

Lemma toLowerCase_app (a b : string) :
  JSString.toLowerCase (a ++ b)%string
  = (JSString.toLowerCase a ++ JSString.toLowerCase b)%string.
Proof. induction a as [|c r IH]; [reflexivity|]. cbn. rewrite IH. reflexivity. Qed.

(** *** Grading *)

Lemma ends_with_whitespace_split (s : string) :
  ends_with_whitespace s = true ->
  exists y d, s = (y ++ String d EmptyString)%string /\ JSString.is_whitespace d = true.
Proof.
  induction s as [|c r IH]; [discriminate|].
  destruct r as [|c' r'].
  - cbn. intros H. exists EmptyString, c. split; [reflexivity | exact H].
  - intros H. destruct (IH H) as (y & d & E & W).
    exists (String c y), d. cbn [String.append]. rewrite <- E. split; [reflexivity | exact W].
Qed.

Lemma outer_whitespace_never_matches (a text : string) :
  starts_with_whitespace a || ends_with_whitespace a = true ->
  JSString.toLowerCase (JSString.trim text) <> JSString.toLowerCase a.
Proof.
  intros H E. rewrite <- trim_toLowerCase in E.
  apply orb_true_iff in H as [H|H].
  - destruct a as [|c r]; [discriminate H|]. cbn in H.
    cbn [JSString.toLowerCase] in E. apply trim_head in E.
    rewrite is_whitespace_lower_char in E. congruence.
  - destruct (ends_with_whitespace_split _ H) as (y & d & -> & W).
    rewrite toLowerCase_app in E. cbn [JSString.toLowerCase] in E.
    unfold JSString.trim in E. apply trimEnd_last in E.
    rewrite is_whitespace_lower_char in E. congruence.
Qed.

(** X10.  In every run on a bank of plain question texts, before the
    last question, a submission that differs from the stored answer once
    trimmed and lower-cased leaves both counters as they are.  With line
    210 read as [else if] the whole application stays as it was; read as
    [else], the failure result is printed, once. *)
Theorem differing_submission_scores_nothing (rd : line210) (qs : QuestionsList)
  (events : list click) (i : Z) (qa : QuestionAnswer) (text : string) :
  plain_bank qs = true ->
  phase_of (run rd qs events) = Some (AwaitingAnswer i) ->
  i < length_of qs - 1 ->
  element_at qs i = Some qa ->
  ~ matches text qa ->
  let app := run rd qs events in
  let app' := dispatch rd (Submit text) app in
  state app' = state app /\
  match rd with
  | read_else_if => app' = app
  | read_else =>
      phase_of app' = Some (ShowingResult i false) /\
      rendered (view app') = (rendered (view app) ++ [ResultPage wrong_message])%list
  end.
Proof. intros _. apply differing_submission_in_run. Qed.

Lemma differing_submission_scores_nothing_witness :
  let app := run read_else questions_const [Start] in
  let app' := dispatch read_else (Submit "Aleppo") app in
  state app' = state app /\
  phase_of app' = Some (ShowingResult 0 false) /\
  rendered (view app') = (rendered (view app) ++ [ResultPage wrong_message])%list.
Proof.
  apply (differing_submission_scores_nothing read_else questions_const [Start] 0
           {| question := "What is the capital of Syria?"; answer := "Damascus" |}
           "Aleppo").
  - reflexivity.
  - reflexivity.
  - reflexivity.
  - reflexivity.
  - vm_compute. discriminate.
Defined.

(** X11.  A stored answer that starts or ends with white space cannot be
    matched, only the typed text being trimmed: in every run on a bank of
    plain question texts, before the last question, whatever is typed for
    it leaves both counters as they are and never brings the success
    result. *)
Theorem answer_with_outer_whitespace_is_never_accepted (rd : line210)
  (qs : QuestionsList) (events : list click) (i : Z) (qa : QuestionAnswer) :
  plain_bank qs = true ->
  phase_of (run rd qs events) = Some (AwaitingAnswer i) ->
  i < length_of qs - 1 ->
  element_at qs i = Some qa ->
  starts_with_whitespace (answer qa) || ends_with_whitespace (answer qa) = true ->
  forall text,
    let app' := dispatch rd (Submit text) (run rd qs events) in
    state app' = state (run rd qs events) /\
    phase_of app' <> Some (ShowingResult i true).
Proof.
  intros _ Hp Hlt Hqa Hw text. cbv zeta.
  assert (D : ~ matches text qa)
    by (apply outer_whitespace_never_matches, Hw).
  destruct (differing_submission_in_run rd qs events i qa text Hp Hlt Hqa D)
    as (St & R).
  split; [exact St|]. destruct rd.
  - rewrite R, Hp. discriminate.
  - destruct R as (P & _). rewrite P. discriminate.
Qed.

Lemma answer_with_outer_whitespace_is_never_accepted_witness :
  let app := run read_else padded_bank [Start] in
  let app' := dispatch read_else (Submit " yes") app in
  state app' = state app /\
  phase_of app' <> Some (ShowingResult 0 true).
Proof.
  apply (answer_with_outer_whitespace_is_never_accepted read_else padded_bank
           [Start] 0 {| question := "Can fish fly?"; answer := " yes" |});
    reflexivity.
Defined.



(** *** Screens and counters along a run *)

(** X5.  In every run a click prints at most one template: the trace of
    printed templates grows by nothing or by one screen, which is then
    the content of the container; with nothing printed the content stays
    as it was. *)
Theorem click_prints_at_most_once (rd : line210) (qs : QuestionsList)
  (events : list click) (e : click) :
  exists l,
    rendered (view (dispatch rd e (run rd qs events)))
      = (rendered (view (run rd qs events)) ++ l)%list /\
    (List.length l <= 1)%nat /\
    match l with
    | [] => innerHTML (view (dispatch rd e (run rd qs events)))
            = innerHTML (view (run rd qs events))
    | s :: _ => innerHTML (view (dispatch rd e (run rd qs events))) = Some s
    end.
Proof.
  destruct (transition_trace rd _ _ _ _
              (dispatch_transition rd qs e _ (Inv_run rd qs events)))
    as (l & R & L & H).
  exists l. repeat split; assumption.
Qed.

(** X7.  In every run on a bank of plain question texts the score is at
    most [length - 1] (0 on an empty bank); and when the score screen is
    shown, the number on it is the score and the index is the last one. *)
Theorem score_stays_below_length (rd : line210) (qs : QuestionsList)
  (events : list click) :
  plain_bank qs = true ->
  let app := run rd qs events in
  score (state app) <= Z.max 0 (length_of qs - 1) /\
  (forall n, phase_of app = Some (Finished n) ->
     n = score (state app) /\ current (state app) = length_of qs - 1).
Proof.
  intros _. cbv zeta. destruct (Inv_run rd qs events) as (_ & _ & s & Hs & Hc).
  pose proof (shown_ok_run rd qs events) as S. unfold shown_ok in S.
  unfold phase_of. rewrite Hs in *.
  destruct s as [n|q|m|n]; cbn [counters_ok screen_ok] in *; split; try lia;
    intros k Hk; try discriminate Hk.
  injection Hk as <-. exact S.
Qed.

Lemma score_stays_below_length_witness :
  let app := run read_else one_question [Start; Submit "Aleppo"] in
  plain_bank one_question = true /\
  phase_of app = Some (Finished 0) /\
  score (state app) <= Z.max 0 (length_of one_question - 1) /\
  0 = score (state app) /\ current (state app) = length_of one_question - 1.
Proof.
  split; [reflexivity|]. split; [reflexivity|].
  pose proof (score_stays_below_length read_else one_question
                [Start; Submit "Aleppo"] eq_refl) as (B & F).
  split; [exact B|]. apply (F 0). reflexivity.
Defined.

(** X8.  In every run on a bank of plain question texts, the question on
    a question page is the one stored at [state.current], which is then a
    valid index. *)
Theorem shown_question_is_the_current_one (rd : line210) (qs : QuestionsList)
  (events : list click) (q : string) :
  plain_bank qs = true ->
  innerHTML (view (run rd qs events)) = Some (QuestionPage q) ->
  exists qa, element_at qs (current (state (run rd qs events))) = Some qa /\
             question qa = q.
Proof.
  intros _ Hs. pose proof (shown_ok_run rd qs events) as S. unfold shown_ok in S.
  rewrite Hs in S. destruct S as (qa & E & ->). exists qa. split; [exact E | reflexivity].
Qed.

Lemma shown_question_is_the_current_one_witness :
  let app := run read_else questions_const [Start; Submit "Damascus"; Advance] in
  plain_bank questions_const = true /\
  innerHTML (view app) = Some (QuestionPage "Can fish fly?") /\
  exists qa, element_at questions_const (current (state app)) = Some qa /\
             question qa = "Can fish fly?".
Proof.
  split; [reflexivity|]. split; [reflexivity|].
  apply (shown_question_is_the_current_one read_else questions_const
           [Start; Submit "Damascus"; Advance] "Can fish fly?"); reflexivity.
Defined.

(** X4.  In every run on a bank of plain question texts, a click on an
    element the current screen does not hold, or on the answer field or
    the form themselves, leaves the application exactly as it was. *)
Theorem click_elsewhere_is_ignored (rd : line210) (qs : QuestionsList)
  (events : list click) (e : click) :
  plain_bank qs = true ->
  querySelectorAll (target e) (view (run rd qs events)) = [] \/
  target e = answer_form \/ target e = answer_input ->
  dispatch rd e (run rd qs events) = run rd qs events.
Proof.
  intros _ H. destruct (Inv_run rd qs events) as (_ & Hl & s & Hs & _).
  rewrite (dispatch_init_listeners rd _ _ Hl).
  unfold handler_for, querySelectorAll in *. rewrite Hs in *.
  destruct H as [H|[->| ->]]; try reflexivity.
  destruct (target e), s; try reflexivity; discriminate H.
Qed.

Lemma click_elsewhere_is_ignored_witness :
  let app := run read_else questions_const [Start] in
  plain_bank questions_const = true /\
  querySelectorAll (target Advance) (view app) = [] /\
  dispatch read_else Advance app = app.
Proof.
  split; [reflexivity|]. split; [reflexivity|].
  apply (click_elsewhere_is_ignored read_else questions_const [Start] Advance);
    [reflexivity | left; reflexivity].
Defined.

(** X14.  On an empty bank no sequence of clicks changes anything, under
    either reading of line 210: the application stays as [init] left it,
    on the first page. *)
Theorem empty_bank_never_leaves_first_page (rd : line210) (events : list click) :
  run rd [] events = boot [].
Proof.
  unfold run. induction events as [|e events IH]; [reflexivity|].
  cbn [fold_left].
  assert (E : dispatch rd e (boot []) = boot [])
    by (destruct e as [[] txt]; reflexivity).
  rewrite E. exact IH.
Qed.

(** *** The constructor of the bank *)

Lemma new_QuestionsList_app (a b : list constructor_arg) :
  new_QuestionsList (a ++ b)%list = (new_QuestionsList a ++ new_QuestionsList b)%list.
Proof.
  induction a as [|[q s|] a IH]; cbn [new_QuestionsList app]; [reflexivity | | exact IH].
  rewrite IH. reflexivity.
Qed.

Lemma new_QuestionsList_pairs (pairs : list (string * string)) :
  new_QuestionsList (as_arguments pairs)
  = map (fun p => new_QuestionAnswer (fst p) (snd p)) pairs.
Proof.
  induction pairs as [|p pairs IH]; [reflexivity|].
  cbn [as_arguments map new_QuestionsList]. f_equal. exact IH.
Qed.

(** X1.  Built from a list of two value arrays, the bank has one entry
    per array, in the order given: its length is the number of pairs and
    the element at index [i] is the question and answer of the [i]-th
    pair, [undefined] outside. *)
Theorem constructor_keeps_pairs_in_order (pairs : list (string * string)) (i : Z) :
  let qs := new_QuestionsList (as_arguments pairs) in
  length_of qs = Z.of_nat (List.length pairs) /\
  element_at qs i =
    if i <? 0 then None
    else option_map (fun p => new_QuestionAnswer (fst p) (snd p))
                    (nth_error pairs (Z.to_nat i)).
Proof.
  cbv zeta. rewrite new_QuestionsList_pairs. unfold length_of, element_at.
  rewrite length_map, nth_error_map. split; reflexivity.
Qed.

(** X2.  The constructor ignores an argument that is not an array,
    wherever it stands; the bank of two argument lists put together is as
    long as the two banks together, and a bank is never longer than its
    argument list. *)
Theorem constructor_drops_non_arrays (a b : list constructor_arg) :
  new_QuestionsList (a ++ NotAnArray :: b)%list = new_QuestionsList (a ++ b)%list /\
  length_of (new_QuestionsList (a ++ b)%list)
    = length_of (new_QuestionsList a) + length_of (new_QuestionsList b) /\
  length_of (new_QuestionsList a) <= Z.of_nat (List.length a).
Proof.
  split; [|split].
  - rewrite !new_QuestionsList_app. reflexivity.
  - rewrite new_QuestionsList_app. unfold length_of. rewrite length_app. lia.
  - unfold length_of. induction a as [|[q s|] a IH]; cbn [new_QuestionsList List.length]; lia.
Qed.

(** *** A whole game *)





(** *** The moves of a run *)

(** X3.  No click changes the bank or the listeners: in every run the
    application holds the bank it was built with and the three listeners
    of [init]. *)
Theorem bank_and_listeners_never_change (rd : line210) (qs : QuestionsList) (events : list click) :
  questions (run rd qs events) = qs /\
  listeners (view (run rd qs events)) = init_listeners.
Proof. destruct (Inv_run rd qs events) as (Hq & Hl & _). split; assumption. Qed.

(** X9.  In every run on a bank of plain question texts a click either
    leaves the run state and the counters as they are or makes one of
    these moves: Play from the first page or from the score page to
    question 0 with the score at 0; before the last question, a text that
    matches the stored answer to the success result with one point more,
    and, only with line 210 read as [else], a text that differs from it
    to the failure result with the score as it was; any answer at the
    last question to the score screen showing the score as it stands;
    Next Question from a result to the following question.  So the score
    screen is never reached by Next Question. *)
Theorem run_follows_state_machine (rd : line210) (qs : QuestionsList)
  (events : list click) (e : click) :
  plain_bank qs = true ->
  let app := run rd qs events in
  let app' := dispatch rd e app in
  (phase_of app' = phase_of app /\ state app' = state app) \/
  allowed_step rd qs e (phase_of app) (score (state app))
               (phase_of app') (score (state app')).
Proof.
  intros _. cbv zeta.
  pose proof (dispatch_transition rd qs e _ (Inv_run rd qs events)) as T.
  destruct T as [_|_ _|qa Hh _|Hh L|qa Hh L E M|qa _ _ _ _ _|qa R Hh L E D|qa Hh _].
  - left. split; reflexivity.
  - left. split; reflexivity.
  - right. destruct (handler_for_startGame _ _ Hh) as (Ht & [P|[n P]]);
      rewrite P; repeat split; assumption.
  - right. destruct (handler_for_checkAnswer _ _ Hh) as (Ht & P & _).
    rewrite P. unfold allowed_step, phase_of. js_unfold.
    repeat split; assumption.
  - right. destruct (handler_for_checkAnswer _ _ Hh) as (Ht & P & _).
    rewrite P. unfold allowed_step, phase_of. js_unfold.
    rewrite String.eqb_refl. cbn [scored set_state state score].
    split; [exact Ht|]. split; [exact L|]. split; [reflexivity|].
    exists qa. split; [exact E|]. left. repeat split. exact M.
  - left. split; reflexivity.
  - right. destruct (handler_for_checkAnswer _ _ Hh) as (Ht & P & _).
    rewrite P. unfold allowed_step, phase_of. js_unfold.
    change (String.eqb wrong_message correct_message) with false.
    split; [exact Ht|]. split; [exact L|]. split; [reflexivity|].
    exists qa. split; [exact E|]. right. repeat split; assumption.
  - right. destruct (handler_for_nextQuestion _ _ Hh) as (Ht & c & P).
    rewrite P. unfold allowed_step, phase_of. js_unfold.
    repeat split; assumption.
Qed.

Lemma run_follows_state_machine_witness :
  let app := run read_else questions_const [Start] in
  let app' := dispatch read_else (Submit "Aleppo") app in
  plain_bank questions_const = true /\
  ((phase_of app' = phase_of app /\ state app' = state app) \/
   allowed_step read_else questions_const (Submit "Aleppo")
                (phase_of app) (score (state app))
                (phase_of app') (score (state app'))).
Proof.
  split; [reflexivity|].
  apply (run_follows_state_machine read_else questions_const [Start]
           (Submit "Aleppo")).
  reflexivity.
Defined.

(** *** Handlers called out of turn *)

(** X15.  [nextQuestion] called when there is no following question
    throws a [TypeError] and prints nothing, but it has already added one
    to [state.current] (a number on which [++] is exact). *)
Theorem nextQuestion_past_the_end (app : QuizzardsApp) :
  exact_increment (current (state app)) ->
  length_of (questions app) <= current (state app) + 1 ->
  outcome nextQuestion app = Throw (TypeError "question") /\
  renders nextQuestion app = [] /\
  view (exec nextQuestion app) = view app /\
  current (state (exec nextQuestion app)) = current (state app) + 1.
Proof.
  intros _ H.
  assert (E : element_at (questions app) (current (state app) + 1) = None)
    by (apply element_at_out_of_range; right; exact H).
  unfold outcome, renders, exec. rewrite (nextQuestion_undefined _ E).
  cbn [fst snd]. unfold advanced, set_state. cbn [view state current].
  rewrite skipn_length_self. repeat split; reflexivity.
Qed.

Lemma nextQuestion_past_the_end_witness :
  exact_increment (current (state result_on_last)) /\
  length_of (questions result_on_last) <= current (state result_on_last) + 1 /\
  outcome nextQuestion result_on_last = Throw (TypeError "question") /\
  renders nextQuestion result_on_last = [] /\
  view (exec nextQuestion result_on_last) = view result_on_last /\
  current (state (exec nextQuestion result_on_last))
    = current (state result_on_last) + 1.
Proof.
  assert (B : exact_increment (current (state result_on_last)))
    by (vm_compute; split; [discriminate | reflexivity]).
  assert (H : length_of (questions result_on_last)
              <= current (state result_on_last) + 1)
    by (vm_compute; discriminate).
  split; [exact B|]. split; [exact H|].
  exact (nextQuestion_past_the_end result_on_last B H).
Defined.


